(** * NoteSphere (semantic_notes): the React front end and the positioning pipeline

    The first part embeds the three React components of the repository:
    [App] (state [notes], [fetchNotes], [handleSaveNote]), [NoteEditor] and
    [NoteVisualizer].  Asynchronous handlers are written in state-passing
    style: a handler receives the answer of the backend to the request it
    makes and the value of the [notes] state at the moment its [setNotes]
    call is applied, and returns the observable effects it performed together
    with the next value of [notes].

    The second part models the similarity index and the update coordinator,
    which the front end only talks to through [/api/notes]. *)

From Stdlib Require Import QArith Qcanon.
From stdpp Require Import gmap strings list numbers.

(** ** JavaScript strings *)

Module JS.

(** A JavaScript string is a sequence of UTF-16 code units. *)
Definition jsstring := list N.

(** A string literal of the source, all of whose characters are ASCII. *)
Fixpoint lit (s : string) : jsstring :=
  match s with
  | EmptyString => []
  | String a r => Ascii.N_of_ascii a :: lit r
  end.

(** The code units [String.prototype.trim] strips: ECMAScript WhiteSpace
    (TAB, VT, FF, SP, NBSP, ZWNBSP and the Unicode category Zs) and
    LineTerminator (LF, CR, LS, PS).  All of them lie in the BMP, so the test
    is on single code units. *)
Definition isWhiteSpace (c : N) : bool :=
  ((c =? 0x09) || (c =? 0x0B) || (c =? 0x0C) || (c =? 0x20) || (c =? 0xA0)
   || (c =? 0xFEFF) || (c =? 0x1680) || ((0x2000 <=? c) && (c <=? 0x200A))
   || (c =? 0x202F) || (c =? 0x205F) || (c =? 0x3000)
   || (c =? 0x0A) || (c =? 0x0D) || (c =? 0x2028) || (c =? 0x2029))%N.

Fixpoint trimStart (s : jsstring) : jsstring :=
  match s with
  | [] => []
  | c :: r => if isWhiteSpace c then trimStart r else s
  end.

Definition trimEnd (s : jsstring) : jsstring :=
  reverse (trimStart (reverse s)).

Definition trim (s : jsstring) : jsstring := trimEnd (trimStart s).

(** ToBoolean on a string: only the empty string is falsy. *)
Definition truthy (s : jsstring) : bool :=
  match s with [] => false | _ :: _ => true end.

(** [a || b] on an optional string: [a] when it is present and truthy. *)
Definition or_else (a : option jsstring) (b : jsstring) : jsstring :=
  match a with
  | Some s => if truthy s then s else b
  | None => b
  end.

End JS.

Import JS.

(** ** Data of the front end *)

(** JavaScript numbers that the components only pass along. *)
Definition number := Q.

(** A note object as the backend returns it: [{id, content, position}].
    [id] and [position] may be missing ([undefined]). *)
Record note := Note {
  id : option N;
  content : jsstring;
  position : option (list number)
}.

(** The error object axios rejects with; [response_error] is
    [error.response?.data?.error]. *)
Record axios_error := AxiosError {
  response_error : option jsstring;
  message : jsstring
}.

(** Outcome of an awaited axios call. *)
Inductive response (A : Type) :=
| Resolved (data : A)
| Rejected (err : axios_error).
Arguments Resolved {A} data.
Arguments Rejected {A} err.

Inductive effect :=
| HttpGet (url : jsstring)
| HttpPost (url : jsstring) (body_content : jsstring)
| Alert (msg : jsstring)
| ConsoleError (label : jsstring) (err : axios_error)
| ConsoleLog (label : jsstring) (arg : jsstring).

Definition API_URL : jsstring := lit "http://localhost:5001/api".

(** ** App *)

Module App.

(** [useState([])] *)
Definition initial_notes : list note := [].

(** [fetchNotes]: [data] is [response.data], [None] standing for a falsy
    payload. *)
Definition fetchNotes (r : response (option (list note))) (prevNotes : list note)
  : list effect * list note :=
  match r with
  | Resolved data =>
      ([HttpGet (API_URL ++ lit "/notes")], default [] data)
  | Rejected error =>
      ([HttpGet (API_URL ++ lit "/notes");
        ConsoleError (lit "Error fetching notes:") error],
       [])
  end.

(** [handleSaveNote]: [r] is the outcome of the POST, consulted only when
    the request is made; [prevNotes] is the argument of the functional
    update [prevNotes => [...prevNotes, response.data]]. *)
Definition handleSaveNote (content : jsstring) (r : response note)
    (prevNotes : list note) : list effect * list note :=
  if negb (truthy (trim content)) then
    ([Alert (lit "Note content cannot be empty.")], prevNotes)
  else
    match r with
    | Resolved data =>
        ([HttpPost (API_URL ++ lit "/notes") content], prevNotes ++ [data])
    | Rejected error =>
        ([HttpPost (API_URL ++ lit "/notes") content;
          ConsoleError (lit "Error saving note:") error;
          Alert (lit "Failed to save note: "
                 ++ or_else (response_error error) (message error))],
         prevNotes)
    end.

(** The events that change the [notes] state, with the backend's answer. *)
Inductive event :=
| Fetch (r : response (option (list note)))
| Save (content : jsstring) (r : response note).

Definition step (notes : list note) (e : event) : list note :=
  match e with
  | Fetch r => snd (fetchNotes r notes)
  | Save c r => snd (handleSaveNote c r notes)
  end.

Definition run (es : list event) (notes : list note) : list note :=
  foldl step notes es.

Definition is_save (e : event) : Prop :=
  match e with Save _ _ => True | Fetch _ => False end.

End App.

(** ** NoteEditor *)

Module NoteEditor.

(** [handleSave]: calls [onSave(noteContent)] when the prop is given. *)
Definition handleSave {A : Type} (onSave : option (jsstring -> A))
    (noteContent : jsstring) : list effect + A :=
  match onSave with
  | Some f => inr (f noteContent)
  | None =>
      inl [ConsoleLog (lit "Save clicked, no onSave handler provided yet:")
             noteContent]
  end.

End NoteEditor.

(** ** NoteVisualizer *)

Module NoteVisualizer.

Inductive element :=
| AmbientLight (intensity : number)
| PointLight (light_position : list number) (intensity : number)
| Box (key : option N) (box_position : list number) (args : list number)
      (color : string)
| OrbitControls.

Record canvas := Canvas {
  camera_position : list number;
  camera_fov : number;
  children : list element
}.

(** [note.position || [0, 0, 0]]: an array is truthy, [undefined] is not. *)
Definition position_or_origin (p : option (list number)) : list number :=
  match p with
  | Some a => a
  | None => [0; 0; 0]%Q
  end.

Definition render_note (n : note) : element :=
  Box (id n) (position_or_origin (position n)) [0.5; 0.5; 0.5]%Q "#6A8D92".

(** [notes && notes.map(...)]: a falsy [notes] prop renders no child.
    [children] lists the elements under the [Canvas]; the one-blank text
    children that JSX keeps in front of the same-line comments are not
    elements and are left out. *)
Definition NoteVisualizer (notes : option (list note)) : canvas :=
  Canvas [0; 5; 10]%Q 75%Q
    ([AmbientLight 0.8%Q; PointLight [10; 10; 10]%Q 1%Q]
     ++ match notes with
        | Some ns => map render_note ns
        | None => []
        end
     ++ [OrbitControls]).

Definition is_box (e : element) : bool :=
  match e with Box _ _ _ _ => true | _ => false end.

(** The nodes of a scene: its [Box] children, in order. *)
Definition nodes (c : canvas) : list element :=
  List.filter is_box (children c).

Definition node_key (e : element) : option N :=
  match e with Box k _ _ _ => k | _ => None end.

Definition node_position (e : element) : list number :=
  match e with Box _ p _ _ => p | _ => [] end.

(** A scene whose nodes all sit at two-component coordinates. *)
Definition planar (c : canvas) : Prop :=
  ∀ e, e ∈ nodes c → length (node_position e) = 2.

(** A note handed to the visualizer that carries a two-component
    coordinate [[x, y]]. *)
Definition two_component (n : note) : Prop :=
  ∃ x y : number, position n = Some [x; y].

End NoteVisualizer.

(** ** The positioning pipeline behind [/api/notes]

    The backend that embeds a note and assigns its position is not part of
    the front-end sources.  Its components are modelled here from their
    specified contracts.  The pretrained encoder, the similarity metric and
    the numeric placement procedures are opaque capabilities and stay
    parameters of the model. *)

Module Pipeline.

(** Modelled from the spec: the stable unique id of a document; the
    backend that assigns it is absent from the sources. *)
Definition doc_id := N.

(** Modelled from the spec: the error of the taxonomy that [embed]
    raises. *)
Inductive error := InvalidInput.

(** Modelled from the spec: the published [LayoutSnapshot
    { points: [{docId, x, y}], edges: [{a, b, score}], version }];
    the backend types are absent from the sources. *)
Record layout_point := LayoutPoint {
  point_docId : doc_id;
  point_x : number;
  point_y : number
}.

Record edge := Edge {
  edge_a : doc_id;
  edge_b : doc_id;
  score : Qc
}.

Record snapshot := Snapshot {
  points : list layout_point;
  edges : list edge;
  version : nat
}.

(** Modelled from the spec: the inbound interface [onDocumentChanged(docId,
    content, contentHash)], [onDocumentDeleted(docId)] and the explicit
    rebuild trigger. *)
Inductive event :=
| DocumentChanged (d : doc_id) (text : jsstring) (contentHash : N)
| DocumentDeleted (d : doc_id)
| Rebuild.

(** Modelled from the spec: the unordered pairs of the embedding set, each
    taken once. *)
Fixpoint pairs {A : Type} (l : list A) : list (A * A) :=
  match l with
  | [] => []
  | u :: r => map (pair u) r ++ pairs r
  end.

Section Model.

Context {vector : Type}.

(** The pretrained text encoder. *)
Variable encoder : jsstring -> vector.
(** The similarity metric (cosine similarity is the reference). *)
Variable similarity : vector -> vector -> Qc.
(** Configuration. *)
Variable similarityThreshold : Qc.
Variable seed : N.

(** Modelled from the spec: the Embedding Record kept by the Vector Store
    for a document (its vector and the content hash at embedding time). *)
Record embedding_record := EmbeddingRecord {
  vec : vector;
  content_hash : N
}.

(** Projection engine procedures: neighbour-seeded placement of a
    changed document, bounded local relaxation of another point, and the
    seeded global reduction used by a full rebuild. *)
Variable place :
  gmap doc_id embedding_record -> gmap doc_id (number * number) ->
  doc_id -> number * number.
Variable relax :
  gmap doc_id embedding_record -> doc_id -> doc_id ->
  number * number -> number * number.
Variable reduce :
  N -> gmap doc_id embedding_record -> doc_id -> number * number.

(** Modelled from the spec: the Embedding Provider's [embed(text)], which
    is absent from the sources; empty or whitespace-only text is rejected
    with [InvalidInput], any other text goes to the encoder. *)
Definition embed (text : jsstring) : error + vector :=
  if truthy (trim text) then inr (encoder text) else inl InvalidInput.

(** Modelled from the spec: the Similarity Edge of a pair of embedding
    records, scored by the metric. *)
Definition scored (p : (doc_id * embedding_record) * (doc_id * embedding_record))
  : edge :=
  Edge p.1.1 p.2.1 (similarity (vec p.1.2) (vec p.2.2)).

(** Modelled from the spec: the Similarity Index's [edgesAbove(threshold)]
    over the full embedding set, absent from the sources.  An edge is
    present only if its score exceeds the threshold. *)
Definition edgesAbove (threshold : Qc)
    (embeddings : list (doc_id * embedding_record)) : list edge :=
  filter (λ e, (threshold < score e)%Qc) (scored <$> pairs embeddings).

(** Modelled from the spec: the shared state the coordinator guards, that
    is the Vector Store, the persistent layout of the Projection Engine and
    the version counter. *)
Record state := State {
  store : gmap doc_id embedding_record;
  layout : gmap doc_id (number * number);
  version_counter : nat
}.

(** Modelled from the spec: the empty corpus. *)
Definition initial : state := State ∅ ∅ 0.

(** Modelled from the spec: the invariant that Layout Points and Embedding
    Records are in 1:1 correspondence. *)
Definition corresponds (st : state) : Prop := dom (layout st) = dom (store st).

(** Modelled from the spec: the fixed default placement. *)
Definition origin : number * number := (0%Q, 0%Q).

(** Modelled from the spec: the Projection Engine's edge policy, absent
    from the sources; with fewer than 2 documents every point gets the
    fixed default placement. *)
Definition settle (s : gmap doc_id embedding_record)
    (l : gmap doc_id (number * number)) : gmap doc_id (number * number) :=
  if decide (size s < 2) then (λ _, origin) <$> l else l.

(** Modelled from the spec: the incremental projection of a created or
    edited document [d], absent from the sources; [d] is (re)inserted at
    its neighbour-seeded place and the points already laid out undergo
    the local relaxation. *)
Definition project_incremental (s : gmap doc_id embedding_record)
    (l : gmap doc_id (number * number)) (d : doc_id)
  : gmap doc_id (number * number) :=
  settle s (<[d := place s l d]> (map_imap (λ k p, Some (relax s d k p)) l)).

(** Modelled from the spec: the full global reduction pass, absent from
    the sources; one point per embedding record. *)
Definition project_rebuild (s : gmap doc_id embedding_record)
  : gmap doc_id (number * number) :=
  settle s (map_imap (λ k _, Some (reduce seed s k)) s).

(** Modelled from the spec: the Layout Snapshot of a state, that is the full
    current set of Layout Points, the Similarity Edges above the configured
    threshold and the version counter. *)
Definition snapshot_of (st : state) : snapshot :=
  Snapshot ((λ kp, LayoutPoint kp.1 kp.2.1 kp.2.2) <$> map_to_list (layout st))
           (edgesAbove similarityThreshold (map_to_list (store st)))
           (version_counter st).

(** Modelled from the spec: the terminal [Published] state of a run of
    the Update Coordinator, absent from the sources; it emits a new
    snapshot version. *)
Definition publish (s : gmap doc_id embedding_record)
    (l : gmap doc_id (number * number)) (v : nat) : state * snapshot :=
  let st := State s l (S v) in (st, snapshot_of st).

(** Modelled from the spec: one pipeline run of the Update Coordinator
    ([Received], [Embedding], [Indexing], [Projecting], [Published]),
    absent from the sources.  Writes to the shared state are serialized,
    so a run is a function of the state it starts from. *)
Definition handle (st : state) (e : event) : state * (error + snapshot) :=
  match e with
  | DocumentChanged d text h =>
      match embed text with
      | inl err => (st, inl err)
      | inr v =>
          let s := <[d := EmbeddingRecord v h]> (store st) in
          let (st', snap) :=
            publish s (project_incremental s (layout st) d) (version_counter st) in
          (st', inr snap)
      end
  | DocumentDeleted d =>
      let s := delete d (store st) in
      let (st', snap) :=
        publish s (settle s (delete d (layout st))) (version_counter st) in
      (st', inr snap)
  | Rebuild =>
      let (st', snap) :=
        publish (store st) (project_rebuild (store st)) (version_counter st) in
      (st', inr snap)
  end.

(** Modelled from the spec: the coordinator's single writer, absent from
    the sources.  It processes the queued events one after the other (the
    queue holds the events that survived coalescing); [run] returns the
    final state and the snapshots in the order they were published. *)
Fixpoint run (st : state) (es : list event) : state * list snapshot :=
  match es with
  | [] => (st, [])
  | e :: r =>
      let (st1, out) := handle st e in
      let (st2, published) := run st1 r in
      (st2, match out with inr snap => snap :: published | inl _ => published end)
  end.

End Model.

(** Modelled from the spec: the document ids that have a point in a
    snapshot. *)
Definition point_ids (s : snapshot) : list doc_id := point_docId <$> points s.

(** Modelled from the spec: internal consistency of a snapshot; both
    endpoints of every edge have a point in the same snapshot. *)
Definition consistent (s : snapshot) : Prop :=
  ∀ e, e ∈ edges s → edge_a e ∈ point_ids s ∧ edge_b e ∈ point_ids s.

End Pipeline.

(** ** Sample data

    Concrete notes, and a concrete instance of the pipeline's opaque
    capabilities, on which the definitions above can be evaluated. *)

Module Sample.

Import Pipeline.

Definition blank : jsstring := [32; 160; 9; 10]%N.

Definition hiking : note :=
  Note (Some 1%N) (lit "I love hiking in the mountains") (Some [1; 2; 3]%Q).

Definition taxes : note :=
  Note (Some 2%N) (lit "Quarterly tax filing deadlines") None.

Definition encoder (text : jsstring) : nat := length (trim text).

Definition similarity (u v : nat) : Qc :=
  if decide (u = v) then 1%Qc else 0%Qc.

Definition threshold : Qc := Q2Qc 0.7.

Definition place (s : gmap doc_id (@embedding_record nat))
    (l : gmap doc_id (number * number)) (d : doc_id) : number * number :=
  (inject_Z (Z.of_N d), 1%Q).

Definition relax (s : gmap doc_id (@embedding_record nat)) (d k : doc_id)
    (p : number * number) : number * number := p.

Definition reduce (seed : N) (s : gmap doc_id (@embedding_record nat))
    (d : doc_id) : number * number :=
  (inject_Z (Z.of_N d), inject_Z (Z.of_N seed)).

Definition events : list event :=
  [DocumentChanged 1%N (lit "hiking") 11%N;
   DocumentChanged 2%N (lit "  ") 22%N;
   DocumentChanged 3%N (lit "trails") 33%N;
   Rebuild;
   DocumentDeleted 1%N].

Definition embeddings : list (doc_id * @embedding_record nat) :=
  [(1%N, EmbeddingRecord 6 11%N); (2%N, EmbeddingRecord 4 22%N);
   (3%N, EmbeddingRecord 6 33%N)].

Definition published : list snapshot :=
  (run encoder similarity threshold 7%N place relax reduce initial events).2.

Definition nth_published (i : nat) : snapshot :=
  default (Snapshot [] [] 0) (published !! i).

End Sample.

(** ** NoteEditor: the keyboard shortcut and the text area *)

Module Editor.

(** The fields of a [keydown] event that [handleKeyDown] reads. *)
Record key_event := KeyEvent {
  ctrlKey : bool;
  key : jsstring
}.

Inductive dom_effect :=
| PreventDefault
| FocusTextArea
| Log (msg : jsstring).

(** [handleKeyDown]: [event.ctrlKey && event.key === 'n']. *)
Definition handleKeyDown (event : key_event) : list dom_effect :=
  if ctrlKey event && bool_decide (key event = lit "n") then
    [PreventDefault; FocusTextArea;
     Log (lit "Ctrl+N pressed - focusing editor")]
  else [].

(** What the user does to the mounted editor: type or paste (the
    [onChange] of the text area delivers the whole new value), press a key,
    click "Save Note". *)
Inductive event :=
| Change (value : jsstring)
| KeyDown (ev : key_event)
| ClickSave.

Definition is_change (e : event) : bool :=
  match e with Change _ => true | _ => false end.

Definition is_click (e : event) : bool :=
  match e with ClickSave => true | _ => false end.

(** The values typed into the text area, in order. *)
Definition typed (es : list event) : list jsstring :=
  omap (λ e, match e with Change value => Some value | _ => None end) es.

Section Machine.

Context {A : Type}.

(** The [onSave] prop. *)
Variable onSave : option (jsstring -> A).

Inductive output :=
| Dom (d : dom_effect)
| Saved (r : list effect + A).

(** One event on the state [noteContent]; neither [handleKeyDown] nor
    [handleSave] calls [setNoteContent]. *)
Definition step (noteContent : jsstring) (e : event)
  : list output * jsstring :=
  match e with
  | Change value => ([], value)
  | KeyDown ev => (Dom <$> handleKeyDown ev, noteContent)
  | ClickSave =>
      ([Saved (NoteEditor.handleSave onSave noteContent)], noteContent)
  end.

Fixpoint run (noteContent : jsstring) (es : list event)
  : list output * jsstring :=
  match es with
  | [] => ([], noteContent)
  | e :: r =>
      let (out, c) := step noteContent e in
      let (outs, c') := run c r in
      (out ++ outs, c')
  end.

Definition is_saved (o : output) : bool :=
  match o with Saved _ => true | Dom _ => false end.

End Machine.

(** [useState('')] *)
Definition initial_content : jsstring := [].

End Editor.

(** ** Traces of the [notes] state *)

Module Trace.

Import App.

(** The note a save contributes to the state: [response.data] of a POST
    that was made (the text passed the guard) and resolved. *)
Definition accepted (e : event) : option note :=
  match e with
  | Save c (Resolved data) => if truthy (trim c) then Some data else None
  | _ => None
  end.


Definition is_alert (e : effect) : bool :=
  match e with Alert _ => true | _ => false end.

Definition is_post (e : effect) : bool :=
  match e with HttpPost _ _ => true | _ => false end.

End Trace.

(** More sample data. *)

Module Sample2.

Definition padded : jsstring := lit "  tax  filing ".

Definition hiking_edited : note :=
  Note (Some 1%N) (lit "Recipe for sourdough bread") (Some [1; 2; 3]%Q).

Definition ctrl_n : Editor.key_event := Editor.KeyEvent true (lit "n").

Definition network_error : axios_error :=
  AxiosError None (lit "Network Error").

Definition bad_request : axios_error :=
  AxiosError (Some (lit "Content is required"))
    (lit "Request failed with status code 400").

Definition saves : list App.event :=
  [App.Save padded (Resolved Sample.taxes);
   App.Save Sample.blank (Resolved Sample.hiking);
   App.Save padded (Rejected network_error)].

Definition keys_and_clicks : list Editor.event :=
  [Editor.KeyDown ctrl_n; Editor.ClickSave;
   Editor.KeyDown (Editor.KeyEvent false (lit "n"))].

End Sample2.

(** * Properties of the front end *)

Section Trim.

Implicit Types s : jsstring.

Lemma trimStart_whitespace s :
  Forall (λ c, isWhiteSpace c = true) s → trimStart s = [].
Proof.
  induction 1 as [|c r Hc _ IH]; simpl; [done|]. by rewrite Hc.
Qed.

Lemma trimStart_nil_inv s :
  trimStart s = [] → Forall (λ c, isWhiteSpace c = true) s.
Proof.
  induction s as [|c r IH]; simpl; [constructor|].
  destruct (isWhiteSpace c) eqn:Hc; [|done].
  intros Hr. constructor; auto.
Qed.

Lemma trim_whitespace s :
  Forall (λ c, isWhiteSpace c = true) s → trim s = [].
Proof.
  intros Hs. unfold trim, trimEnd. by rewrite (trimStart_whitespace s Hs).
Qed.

(** [!content.trim()] holds exactly for the strings made of whitespace. *)
Lemma trim_falsy_iff s :
  truthy (trim s) = false ↔ Forall (λ c, isWhiteSpace c = true) s.
Proof.
  split.
  - unfold trim, trimEnd. intros Ht.
    destruct (reverse (trimStart (reverse (trimStart s)))) as [|c r] eqn:E;
      [|done].
    apply (f_equal reverse) in E. rewrite reverse_involutive in E.
    simpl in E. apply trimStart_nil_inv in E.
    apply Forall_reverse in E. rewrite reverse_involutive in E.
    destruct (trimStart s) as [|c' r'] eqn:E'; [by apply trimStart_nil_inv|].
    exfalso.
    assert (Hc' : isWhiteSpace c' = true) by by inversion E.
    clear E. induction s as [|c0 r0 IH]; simpl in E'; [done|].
    destruct (isWhiteSpace c0) eqn:Hc0; [by apply IH|].
    congruence.
  - intros Hs. by rewrite trim_whitespace.
Qed.

End Trim.

Section AppProperties.

Import App.

Implicit Types (content : jsstring) (notes prevNotes : list note).

(** X19: the guard of the front end: for a text that is empty or made only
    of whitespace [handleSaveNote] shows the alert "Note content cannot be
    empty.", sends nothing to the backend and leaves the notes as they
    were. *)
Theorem handleSaveNote_blank_rejected content (r : response note) prevNotes :
  Forall (λ c, isWhiteSpace c = true) content →
  handleSaveNote content r prevNotes
  = ([Alert (lit "Note content cannot be empty.")], prevNotes).
Proof.
  intros Hblank. unfold handleSaveNote.
  by rewrite (trim_whitespace content Hblank).
Qed.

(** Clicking "Save Note" in the editor wired to [handleSaveNote], as [App]
    does, with a blank text area: the same rejection. *)
Lemma handleSave_blank noteContent (r : response note) prevNotes :
  Forall (λ c, isWhiteSpace c = true) noteContent →
  NoteEditor.handleSave (Some (λ c, handleSaveNote c r prevNotes)) noteContent
  = inr ([Alert (lit "Note content cannot be empty.")], prevNotes).
Proof.
  intros Hblank. simpl. unfold handleSaveNote.
  by rewrite (trim_whitespace noteContent Hblank).
Qed.

(** A save whose text is not blank always issues the POST. *)
Lemma handleSaveNote_posts content (r : response note) prevNotes :
  truthy (trim content) = true →
  HttpPost (API_URL ++ lit "/notes") content ∈ (handleSaveNote content r prevNotes).1.
Proof.
  intros Ht. unfold handleSaveNote. rewrite Ht. simpl.
  destruct r; simpl; apply list_elem_of_here.
Qed.

(** A save the backend refuses leaves the notes as they were. *)
Lemma handleSaveNote_failure_keeps content error prevNotes :
  (handleSaveNote content (Rejected error) prevNotes).2 = prevNotes.
Proof. unfold handleSaveNote. by destruct (negb _). Qed.

(** C10: a successful save (the text is not blank and the POST resolves
    with the new note) appends exactly that one note at the end of the
    list; every note held before keeps its index and its value. *)
Theorem handleSaveNote_success_appends content (data : note) prevNotes :
  truthy (trim content) = true →
  (handleSaveNote content (Resolved data) prevNotes).2 = prevNotes ++ [data]
  ∧ length (handleSaveNote content (Resolved data) prevNotes).2
    = S (length prevNotes)
  ∧ ∀ i n, prevNotes !! i = Some n →
      (handleSaveNote content (Resolved data) prevNotes).2 !! i = Some n.
Proof.
  intros Ht. unfold handleSaveNote. rewrite Ht. simpl.
  split; [done|]. split.
  - rewrite length_app. simpl. lia.
  - intros i n Hi. by apply lookup_app_l_Some.
Qed.

(** Whatever the backend answers, saving never touches the notes already
    held: they stay a prefix of the list. *)
Lemma handleSaveNote_prefix content (r : response note) prevNotes :
  prevNotes `prefix_of` (handleSaveNote content r prevNotes).2.
Proof.
  unfold handleSaveNote.
  destruct (negb _); [done|]. destruct r; simpl; [|done].
  by apply prefix_app_r.
Qed.

Lemma run_saves_prefix (es : list event) notes :
  Forall is_save es → notes `prefix_of` run es notes.
Proof.
  intros Hes. revert notes.
  induction Hes as [|e es He _ IH]; intros notes; [done|].
  destruct e as [|c r]; [done|]. simpl.
  etrans; [apply (handleSaveNote_prefix c r)|apply IH].
Qed.

End AppProperties.

Section VisualizerProperties.

Import NoteVisualizer.

Implicit Types (notes : list note) (e : element).

Lemma filter_render_note notes :
  List.filter is_box (map render_note notes) = map render_note notes.
Proof. induction notes as [|n r IH]; simpl; [done|]. by rewrite IH. Qed.

(** The nodes of the scene are the rendered notes, in order. *)
Lemma nodes_NoteVisualizer notes :
  nodes (NoteVisualizer (Some notes)) = map render_note notes.
Proof.
  unfold nodes, NoteVisualizer. simpl.
  rewrite List.filter_app, filter_render_note. simpl.
  by rewrite app_nil_r.
Qed.

Lemma nodes_NoteVisualizer_None : nodes (NoteVisualizer None) = [].
Proof. reflexivity. Qed.

(** C8: when fetching the notes fails, the [notes] state becomes the empty
    list whatever it held before, and the visualizer given that state
    renders a scene without any node. *)
Theorem fetchNotes_failure_empty_scene (error : axios_error)
    (prevNotes : list note) :
  (App.fetchNotes (Rejected error) prevNotes).2 = []
  ∧ nodes (NoteVisualizer (Some (App.fetchNotes (Rejected error) prevNotes).2))
    = [].
Proof. split; reflexivity. Qed.

(** C9: the visualizer renders the notes one node each, in order, keyed by
    the note's id; a note without a position is placed at the origin
    [0, 0, 0], a note with a position at that position; for every id the
    scene has as many nodes with that key as the list has notes with that
    id. *)
Theorem NoteVisualizer_one_node_per_note notes :
  length (nodes (NoteVisualizer (Some notes))) = length notes
  ∧ (∀ i n, notes !! i = Some n →
       ∃ e, nodes (NoteVisualizer (Some notes)) !! i = Some e
            ∧ node_key e = id n
            ∧ (position n = None → node_position e = [0; 0; 0]%Q)
            ∧ (∀ p, position n = Some p → node_position e = p))
  ∧ (∀ k : N,
       length (filter (λ e, node_key e = Some k)
                 (nodes (NoteVisualizer (Some notes))))
       = length (filter (λ n, id n = Some k) notes)).
Proof.
  rewrite nodes_NoteVisualizer. split; [by rewrite length_map|]. split.
  - intros i n Hi. exists (render_note n). split.
    + by rewrite list_lookup_fmap, Hi.
    + simpl. split; [done|]. split; intros; by destruct (position n); simplify_eq.
  - intros k. induction notes as [|n r IH]; [done|].
    simpl. rewrite !filter_cons. simpl.
    destruct (decide (id n = Some k)); simpl; by rewrite IH.
Qed.

Lemma two_component_length (n : note) :
  length (position_or_origin (position n)) = 2 ↔ two_component n.
Proof.
  unfold two_component. destruct (position n) as [p|]; simpl.
  - split.
    + destruct p as [|x [|y [|z p]]]; simpl; try done. intros _. by exists x, y.
    + by intros (x & y & [= ->]).
  - split; [done|]. by intros (x & y & ?).
Qed.

(** C5, as the code has it: the points handed to the visualizer are notes
    [{id, content, position}].  Every node of the scene belongs to one of
    them and sits at the position array that note carries, handed through
    unchanged, or, exactly when the note carries none, at the origin
    [0, 0, 0], which has three components.  So the nodes all sit at
    two-component coordinates if and only if every note handed over
    carries a two-component position.  The camera of the scene has three
    components. *)
Theorem NoteVisualizer_node_positions notes :
  (∀ e, e ∈ nodes (NoteVisualizer (Some notes)) →
     ∃ n, n ∈ notes ∧ node_key e = id n
          ∧ (position n = Some (node_position e)
             ∨ (position n = None ∧ node_position e = [0; 0; 0]%Q)))
  ∧ (∀ n, n ∈ notes → position n = None →
       ∃ e, e ∈ nodes (NoteVisualizer (Some notes))
            ∧ node_key e = id n
            ∧ node_position e = [0; 0; 0]%Q
            ∧ length (node_position e) = 3)
  ∧ (planar (NoteVisualizer (Some notes)) ↔ ∀ n, n ∈ notes → two_component n)
  ∧ length (camera_position (NoteVisualizer (Some notes))) = 3.
Proof.
  unfold planar. rewrite nodes_NoteVisualizer.
  split; [|split; [|split; [|done]]].
  - intros e He. apply list_elem_of_fmap in He as (n & -> & Hn).
    exists n. split; [done|]. split; [done|]. simpl.
    destruct (position n) as [p|]; [by left|by right].
  - intros n Hn Hp. exists (render_note n).
    split; [by apply list_elem_of_fmap_2|]. simpl. by rewrite Hp.
  - split.
    + intros Hplanar n Hn. apply two_component_length.
      apply (Hplanar (render_note n)). by apply list_elem_of_fmap_2.
    + intros Hall e He. apply list_elem_of_fmap in He as (n & -> & Hn).
      simpl. apply two_component_length. by apply Hall.
Qed.

End VisualizerProperties.

(** * Properties of the pipeline *)

Section PipelineProperties.

Import Pipeline.

Context {vector : Type}.
Variable encoder : jsstring → vector.
Variable similarity : vector → vector → Qc.
Variable similarityThreshold : Qc.
Variable seed : N.
Variable place :
  gmap doc_id (@embedding_record vector) → gmap doc_id (number * number) →
  doc_id → number * number.
Variable relax :
  gmap doc_id (@embedding_record vector) → doc_id → doc_id →
  number * number → number * number.
Variable reduce :
  N → gmap doc_id (@embedding_record vector) → doc_id → number * number.

Local Abbreviation handle :=
  (handle encoder similarity similarityThreshold seed place relax reduce).
Local Abbreviation run :=
  (run encoder similarity similarityThreshold seed place relax reduce).
Local Abbreviation snapshot_of := (snapshot_of similarity similarityThreshold).
Local Abbreviation edgesAbove := (edgesAbove similarity).

Implicit Types (st : @state vector) (e : event) (es : list event).
Implicit Types (s : gmap doc_id (@embedding_record vector)).
Implicit Types (l : gmap doc_id (number * number)).

(** *** The similarity index *)

Lemma filter_weaken_sublist {A} (P Q : A → Prop)
    `{!∀ x, Decision (P x)} `{!∀ x, Decision (Q x)} (xs : list A) :
  (∀ x, P x → Q x) → filter P xs `sublist_of` filter Q xs.
Proof.
  intros HPQ. induction xs as [|x xs IH]; [done|].
  rewrite !filter_cons.
  destruct (decide (P x)) as [HP|HP].
  - rewrite decide_True by auto. by apply sublist_skip.
  - destruct (decide (Q x)); [by apply sublist_cons|done].
Qed.

Lemma edgesAbove_sublist (t1 t2 : Qc)
    (embeddings : list (doc_id * @embedding_record vector)) :
  (t1 ≤ t2)%Qc →
  edgesAbove t2 embeddings `sublist_of` edgesAbove t1 embeddings.
Proof.
  intros Ht. apply filter_weaken_sublist.
  intros e He. by eapply Qcle_lt_trans.
Qed.

(** C7: for a fixed embedding set and thresholds [t1 ≤ t2], every edge
    above [t2] is an edge above [t1], and there are no more edges above
    [t2] than above [t1]. *)
Theorem edgesAbove_threshold_monotone (t1 t2 : Qc)
    (embeddings : list (doc_id * @embedding_record vector)) :
  (t1 ≤ t2)%Qc →
  edgesAbove t2 embeddings ⊆ edgesAbove t1 embeddings
  ∧ length (edgesAbove t2 embeddings) ≤ length (edgesAbove t1 embeddings).
Proof.
  intros Ht. pose proof (edgesAbove_sublist t1 t2 embeddings Ht) as Hsub.
  split.
  - intros e He. by eapply elem_of_sublist.
  - by apply sublist_length.
Qed.

(** *** The embedding provider *)

Lemma embed_blank (text : jsstring) :
  Forall (λ c, isWhiteSpace c = true) text →
  embed encoder text = inl InvalidInput.
Proof. intros Hblank. unfold embed. by rewrite (trim_whitespace text Hblank). Qed.

Lemma embed_text (text : jsstring) :
  truthy (trim text) = true → embed encoder text = inr (encoder text).
Proof. intros Ht. unfold embed. by rewrite Ht. Qed.

(** A change whose text is blank ends its run at the embedding stage: the
    error goes back to the caller, nothing is written and nothing is
    published. *)
Lemma handle_blank st (d : doc_id) (text : jsstring) (h : N) :
  Forall (λ c, isWhiteSpace c = true) text →
  handle st (DocumentChanged d text h) = (st, inl InvalidInput).
Proof. intros Hblank. simpl. by rewrite (embed_blank text Hblank). Qed.

(** *** Layout points and embedding records correspond one to one *)

Lemma elem_of_pairs {A} (xs : list A) (u v : A) :
  (u, v) ∈ pairs xs → u ∈ xs ∧ v ∈ xs.
Proof.
  induction xs as [|w xs IH]; simpl; [by intros ?%elem_of_nil|].
  intros [Hin|Hin]%elem_of_app.
  - apply list_elem_of_fmap in Hin as (v' & [= -> ->] & Hv').
    split; [left|by right].
  - destruct (IH Hin). split; by right.
Qed.

Lemma edgesAbove_endpoints (t : Qc)
    (embeddings : list (doc_id * @embedding_record vector)) (e : edge) :
  e ∈ edgesAbove t embeddings →
  edge_a e ∈ embeddings.*1 ∧ edge_b e ∈ embeddings.*1.
Proof.
  unfold Pipeline.edgesAbove. intros [_ He]%list_elem_of_filter.
  apply list_elem_of_fmap in He as ([u v] & -> & Huv).
  apply elem_of_pairs in Huv as [Hu Hv]. simpl.
  split; apply list_elem_of_fmap; eauto.
Qed.

Lemma dom_settle s l : dom (settle s l) = dom l.
Proof. unfold settle. case_decide; [by rewrite dom_fmap_L|done]. Qed.

Lemma dom_imap_total {A B} (f : doc_id → A → B) (m : gmap doc_id A) :
  dom (map_imap (λ k a, Some (f k a)) m) = dom m.
Proof.
  apply set_eq. intros k. rewrite !elem_of_dom, map_lookup_imap.
  destruct (m !! k); simpl; split; intros [? ?]; by eauto.
Qed.

Lemma corresponds_initial : corresponds (@initial vector).
Proof. unfold corresponds. simpl. by rewrite !dom_empty_L. Qed.

Lemma handle_corresponds st e :
  corresponds st → corresponds (handle st e).1.
Proof.
  unfold corresponds. intros Hinv.
  destruct e as [d text h| d |]; simpl.
  - destruct (embed encoder text) as [err|v]; simpl; [done|].
    unfold project_incremental.
    rewrite dom_settle, !dom_insert_L, dom_imap_total. by rewrite Hinv.
  - rewrite dom_settle, !dom_delete_L. by rewrite Hinv.
  - unfold project_rebuild. by rewrite dom_settle, dom_imap_total.
Qed.

(** A run publishes exactly the snapshot of the state it ends in. *)
Lemma handle_publishes st e snap :
  (handle st e).2 = inr snap → snap = snapshot_of (handle st e).1.
Proof.
  destruct e as [d text h| d |]; simpl.
  - destruct (embed encoder text) as [err|v]; simpl; [done|]. by intros [= <-].
  - by intros [= <-].
  - by intros [= <-].
Qed.

Lemma snapshot_of_consistent st : corresponds st → consistent (snapshot_of st).
Proof.
  unfold corresponds, consistent, point_ids. intros Hinv e He. simpl in *.
  apply edgesAbove_endpoints in He.
  assert (Hdom : ∀ k, k ∈ (map_to_list (store st)).*1 →
                 k ∈ point_docId <$> ((λ kp, LayoutPoint kp.1 kp.2.1 kp.2.2)
                                       <$> map_to_list (layout st))).
  { intros k [[k' r] [-> Hk]]%list_elem_of_fmap. simpl.
    apply elem_of_map_to_list in Hk.
    assert (Hl : k' ∈ dom (layout st)).
    { rewrite Hinv. apply elem_of_dom. eauto. }
    apply elem_of_dom in Hl as [p Hp].
    apply list_elem_of_fmap. exists (LayoutPoint k' p.1 p.2). split; [done|].
    apply list_elem_of_fmap. exists (k', p). split; [done|].
    by apply elem_of_map_to_list. }
  destruct He; split; by apply Hdom.
Qed.

Lemma run_cons st e es :
  run st (e :: es)
  = ((run (handle st e).1 es).1,
     match (handle st e).2 with
     | inr snap => snap :: (run (handle st e).1 es).2
     | inl _ => (run (handle st e).1 es).2
     end).
Proof.
  simpl. destruct (handle st e) as [st1 out]. simpl.
  by destruct (run st1 es) as [st2 published].
Qed.

Lemma run_consistent st es snap :
  corresponds st → snap ∈ (run st es).2 → consistent snap.
Proof.
  revert st. induction es as [|e es IH]; intros st Hinv.
  - by intros ?%elem_of_nil.
  - rewrite run_cons. simpl.
    pose proof (handle_corresponds st e Hinv) as Hinv'.
    pose proof (handle_publishes st e) as Hpub.
    destruct ((handle st e).2) as [err|s1].
    + by apply IH.
    + intros [->|Hin]%elem_of_cons; [|by eapply IH].
      rewrite (Hpub s1 eq_refl). by apply snapshot_of_consistent.
Qed.

(** C3: every snapshot the coordinator publishes, over any sequence of
    change, delete and rebuild events processed from the initial state, is
    consistent: the two documents of each of its edges both have a point in
    the point list of that same snapshot. *)
Theorem published_snapshots_consistent es snap :
  snap ∈ (run initial es).2 → consistent snap.
Proof. apply run_consistent, corresponds_initial. Qed.

(** *** Versions *)

Lemma handle_version st e :
  match (handle st e).2 with
  | inr snap =>
      version snap = S (version_counter st)
      ∧ version_counter (handle st e).1 = S (version_counter st)
  | inl _ => handle st e = (st, (handle st e).2)
  end.
Proof.
  destruct e as [d text h| d |]; simpl; [|done..].
  by destruct (embed encoder text) as [err|v].
Qed.

Lemma run_versions_above st es :
  version_counter st ≤ version_counter (run st es).1
  ∧ Forall (λ snap, version_counter st < version snap
                     ∧ version snap ≤ version_counter (run st es).1)
      (run st es).2.
Proof.
  revert st. induction es as [|e es IH]; intros st; [by split|].
  rewrite run_cons. simpl.
  pose proof (handle_version st e) as Hv.
  destruct (IH (handle st e).1) as [Hle Hall].
  destruct ((handle st e).2) as [err|s1].
  - rewrite Hv in *. simpl in *. by split.
  - destruct Hv as [Hs1 Hst]. rewrite Hst in *. split; [lia|].
    constructor; [lia|].
    revert Hall. apply Forall_impl. intros; lia.
Qed.

(** C6: over any sequence of pipeline runs, started in any coordinator
    state, a snapshot published later carries a strictly greater version
    than every snapshot published before it. *)
Theorem published_versions_increase st es (i j : nat) (s1 s2 : snapshot) :
  i < j →
  (run st es).2 !! i = Some s1 →
  (run st es).2 !! j = Some s2 →
  version s1 < version s2.
Proof.
  revert st i j. induction es as [|e es IH]; intros st i j Hij; [done|].
  rewrite run_cons. simpl.
  pose proof (handle_version st e) as Hv.
  pose proof (run_versions_above (handle st e).1 es) as [_ Hall].
  destruct ((handle st e).2) as [err|s0]; [by apply IH|].
  destruct Hv as [Hs0 Hst].
  destruct i as [|i], j as [|j]; try lia; simpl.
  - intros [= <-] Hj.
    eapply Forall_lookup_1 in Hall as [Hlt _]; [|exact Hj]. lia.
  - apply IH. lia.
Qed.

(** *** Blank text *)

Lemma run_app_events st es1 es2 :
  run st (es1 ++ es2)
  = ((run (run st es1).1 es2).1,
     (run st es1).2 ++ (run (run st es1).1 es2).2).
Proof.
  revert st. induction es1 as [|e es1 IH]; intros st.
  - simpl. by destruct (run st es2).
  - change ((e :: es1) ++ es2) with (e :: (es1 ++ es2)).
    rewrite !run_cons, IH. simpl. by destruct ((handle st e).2).
Qed.

(** C4: for every text that is empty or made only of whitespace, [embed]
    rejects it with [InvalidInput] and so yields no vector; the run of the
    coordinator that called [embed] hands that error back to its caller,
    publishes nothing and leaves the state, with the records of all
    documents, as it was; hence such a change, queued anywhere among other
    events, alters neither what is published nor the final state. *)
Theorem embed_blank_InvalidInput (text : jsstring) :
  Forall (λ c, isWhiteSpace c = true) text →
  embed encoder text = inl InvalidInput
  ∧ (∀ v : vector, embed encoder text ≠ inr v)
  ∧ (∀ st (d : doc_id) (h : N),
       handle st (DocumentChanged d text h) = (st, inl InvalidInput))
  ∧ (∀ st (d : doc_id) (h : N) es1 es2,
       run st (es1 ++ DocumentChanged d text h :: es2) = run st (es1 ++ es2)).
Proof.
  intros Hblank.
  assert (Hembed : embed encoder text = inl InvalidInput) by by apply embed_blank.
  assert (Hhandle : ∀ st (d : doc_id) (h : N),
             handle st (DocumentChanged d text h) = (st, inl InvalidInput)).
  { intros st d h. simpl. by rewrite Hembed. }
  split; [done|]. split; [by rewrite Hembed|]. split; [done|].
  intros st d h es1 es2. rewrite !run_app_events.
  by rewrite (run_cons _ (DocumentChanged d text h)), Hhandle.
Qed.

End PipelineProperties.

(** * The definitions at work on the sample data *)

Section Samples.

Import Pipeline NoteVisualizer.

Example trim_sample : trim (lit "  a b  ") = lit "a b".
Proof. reflexivity. Qed.

Example trim_blank_sample : trim Sample.blank = [].
Proof. reflexivity. Qed.

Example handleSaveNote_failure_sample :
  App.handleSaveNote (lit "hi")
    (Rejected (AxiosError (Some []) (lit "Network Error"))) [Sample.hiking]
  = ([HttpPost (lit "http://localhost:5001/api/notes") (lit "hi");
      ConsoleError (lit "Error saving note:")
        (AxiosError (Some []) (lit "Network Error"));
      Alert (lit "Failed to save note: Network Error")],
     [Sample.hiking]).
Proof. reflexivity. Qed.

Example fetchNotes_sample :
  App.fetchNotes (Resolved None) [Sample.hiking]
  = ([HttpGet (lit "http://localhost:5001/api/notes")], []).
Proof. reflexivity. Qed.

Example published_sample :
  version <$> Sample.published = [1; 2; 3; 4]
  ∧ point_ids <$> Sample.published = [[1]; [3; 1]; [3; 1]; [3]]%N
  ∧ (λ s, (λ e, (edge_a e, edge_b e)) <$> edges s) <$> Sample.published
    = [[]; [(3, 1)]; [(3, 1)]; []]%N.
Proof. vm_compute. done. Qed.

Lemma embed_blank_InvalidInput_witness :
  Forall (λ c, isWhiteSpace c = true) Sample.blank
  ∧ embed Sample.encoder Sample.blank = inl InvalidInput
  ∧ handle Sample.encoder Sample.similarity Sample.threshold 7%N Sample.place
      Sample.relax Sample.reduce initial (DocumentChanged 1%N Sample.blank 11%N)
    = (initial, inl InvalidInput).
Proof.
  assert (H : Forall (λ c, isWhiteSpace c = true) Sample.blank)
    by (repeat constructor).
  split; [exact H|].
  destruct (embed_blank_InvalidInput Sample.encoder Sample.similarity
              Sample.threshold 7%N Sample.place Sample.relax Sample.reduce
              Sample.blank H) as (Hembed & _ & Hhandle & _).
  split; [exact Hembed|]. exact (Hhandle initial 1%N 11%N).
Defined.

Lemma handleSaveNote_blank_rejected_witness :
  Forall (λ c, isWhiteSpace c = true) Sample.blank
  ∧ App.handleSaveNote Sample.blank (Resolved Sample.taxes) [Sample.hiking]
    = ([Alert (lit "Note content cannot be empty.")], [Sample.hiking]).
Proof.
  assert (H : Forall (λ c, isWhiteSpace c = true) Sample.blank)
    by (repeat constructor).
  split; [exact H|].
  exact (handleSaveNote_blank_rejected Sample.blank (Resolved Sample.taxes)
           [Sample.hiking] H).
Defined.

Lemma handleSaveNote_success_appends_witness :
  truthy (trim (content Sample.taxes)) = true
  ∧ (App.handleSaveNote (content Sample.taxes) (Resolved Sample.taxes)
       [Sample.hiking]).2 = [Sample.hiking; Sample.taxes].
Proof.
  split; [reflexivity|].
  apply (handleSaveNote_success_appends (content Sample.taxes) Sample.taxes
           [Sample.hiking]).
  reflexivity.
Defined.

Lemma NoteVisualizer_one_node_per_note_witness :
  [Sample.hiking; Sample.taxes] !! 1 = Some Sample.taxes
  ∧ ∃ e, nodes (NoteVisualizer (Some [Sample.hiking; Sample.taxes])) !! 1 = Some e
         ∧ node_key e = Some 2%N ∧ node_position e = [0; 0; 0]%Q.
Proof.
  split; [reflexivity|].
  destruct (NoteVisualizer_one_node_per_note [Sample.hiking; Sample.taxes])
    as (_ & Hnth & _).
  destruct (Hnth 1 Sample.taxes eq_refl) as (e & He & Hkey & Hpos & _).
  exists e. split; [exact He|]. split; [exact Hkey|]. exact (Hpos eq_refl).
Defined.

(** C5, as stated, fails: a note without a position is handed over with
    no coordinate at all, and it is rendered at [0, 0, 0], a coordinate
    with a third component. *)
Lemma NoteVisualizer_not_planar :
  ¬ two_component Sample.taxes
  ∧ ¬ planar (NoteVisualizer (Some [Sample.taxes])).
Proof.
  split.
  - by intros (x & y & ?).
  - intros Hplanar.
    specialize (Hplanar (render_note Sample.taxes)).
    rewrite nodes_NoteVisualizer in Hplanar.
    specialize (Hplanar (list_elem_of_here _ _)). discriminate Hplanar.
Qed.

Lemma NoteVisualizer_node_positions_witness :
  render_note Sample.taxes
    ∈ nodes (NoteVisualizer (Some [Sample.hiking; Sample.taxes]))
  ∧ ∃ n, n ∈ [Sample.hiking; Sample.taxes]
         ∧ node_key (render_note Sample.taxes) = id n
         ∧ (position n = Some (node_position (render_note Sample.taxes))
            ∨ (position n = None
               ∧ node_position (render_note Sample.taxes) = [0; 0; 0]%Q)).
Proof.
  assert (H : render_note Sample.taxes
                ∈ nodes (NoteVisualizer (Some [Sample.hiking; Sample.taxes])))
    by apply list_elem_of_further, list_elem_of_here.
  split; [exact H|].
  exact (proj1 (NoteVisualizer_node_positions [Sample.hiking; Sample.taxes])
           (render_note Sample.taxes) H).
Defined.

Lemma edgesAbove_threshold_monotone_witness :
  (0 ≤ Sample.threshold)%Qc
  ∧ length (edgesAbove Sample.similarity Sample.threshold Sample.embeddings)
    ≤ length (edgesAbove Sample.similarity 0%Qc Sample.embeddings).
Proof.
  assert (H : (0 ≤ Sample.threshold)%Qc) by (vm_compute; discriminate).
  split; [exact H|].
  exact (proj2 (edgesAbove_threshold_monotone Sample.similarity 0%Qc
                  Sample.threshold Sample.embeddings H)).
Defined.

Lemma published_snapshots_consistent_witness :
  Sample.nth_published 1 ∈ Sample.published
  ∧ edges (Sample.nth_published 1) ≠ []
  ∧ consistent (Sample.nth_published 1).
Proof.
  assert (H : Sample.nth_published 1 ∈ Sample.published).
  { apply list_elem_of_lookup. exists 1. vm_compute. reflexivity. }
  split; [exact H|]. split; [vm_compute; discriminate|].
  exact (published_snapshots_consistent Sample.encoder Sample.similarity
           Sample.threshold 7%N Sample.place Sample.relax Sample.reduce
           Sample.events (Sample.nth_published 1) H).
Defined.

Lemma published_versions_increase_witness :
  0 < 2
  ∧ Sample.published !! 0 = Some (Sample.nth_published 0)
  ∧ Sample.published !! 2 = Some (Sample.nth_published 2)
  ∧ version (Sample.nth_published 0) < version (Sample.nth_published 2).
Proof.
  assert (H0 : Sample.published !! 0 = Some (Sample.nth_published 0))
    by (vm_compute; reflexivity).
  assert (H2 : Sample.published !! 2 = Some (Sample.nth_published 2))
    by (vm_compute; reflexivity).
  assert (Hlt : 0 < 2) by lia.
  split; [exact Hlt|]. split; [exact H0|]. split; [exact H2|].
  exact (published_versions_increase Sample.encoder Sample.similarity
           Sample.threshold 7%N Sample.place Sample.relax Sample.reduce
           initial Sample.events 0 2 _ _ Hlt H0 H2).
Defined.

End Samples.

(** * More on the guard of [handleSaveNote]: what [trim] keeps *)

Section TrimShape.

Implicit Types s pre post : jsstring.

Lemma trimStart_split s :
  ∃ pre, s = pre ++ trimStart s ∧ Forall (λ c, isWhiteSpace c = true) pre.
Proof.
  induction s as [|c r (pre & Hr & Hpre)]; simpl.
  - by exists [].
  - destruct (isWhiteSpace c) eqn:Hc.
    + exists (c :: pre). split; [by rewrite Hr at 1|by constructor].
    + by exists [].
Qed.

Lemma trimStart_head s c :
  list.head (trimStart s) = Some c → isWhiteSpace c = false.
Proof.
  induction s as [|c0 r IH]; simpl; [done|].
  destruct (isWhiteSpace c0) eqn:Hc0; [done|]. simpl. congruence.
Qed.

Lemma trimStart_fixed s :
  (∀ c, list.head s = Some c → isWhiteSpace c = false) → trimStart s = s.
Proof. destruct s as [|c r]; simpl; [done|]. intros H. by rewrite (H c). Qed.

Lemma trimEnd_split s :
  ∃ post, s = trimEnd s ++ post ∧ Forall (λ c, isWhiteSpace c = true) post.
Proof.
  destruct (trimStart_split (reverse s)) as (pre & Hs & Hpre).
  exists (reverse pre). split; [|by apply Forall_reverse].
  unfold trimEnd. rewrite <- reverse_app, <- Hs. by rewrite reverse_involutive.
Qed.

Lemma trimEnd_last s c :
  list.last (trimEnd s) = Some c → isWhiteSpace c = false.
Proof.
  unfold trimEnd. rewrite last_reverse. apply trimStart_head.
Qed.

Lemma trimEnd_fixed s :
  (∀ c, list.last s = Some c → isWhiteSpace c = false) → trimEnd s = s.
Proof.
  intros H. unfold trimEnd. rewrite trimStart_fixed.
  - apply reverse_involutive.
  - intros c Hc. apply H. by rewrite <- head_reverse.
Qed.

(** [trimEnd] does not touch the front of a string that starts with a
    non-blank code unit. *)
Lemma trimEnd_head s c :
  list.head s = Some c → isWhiteSpace c = false → list.head (trimEnd s) = Some c.
Proof.
  intros Hhead Hc. destruct (trimEnd_split s) as (post & Hs & Hpost).
  destruct (trimEnd s) as [|c' r'] eqn:E.
  - simpl in Hs. subst post. destruct s as [|c0 r0]; [done|].
    simpl in Hhead. simplify_eq. inversion Hpost; congruence.
  - rewrite Hs in Hhead. simpl in *. congruence.
Qed.

(** X1: [trim] only drops whitespace, and only from the two ends: the string is
    the trimmed string between a run of whitespace and another. *)
Theorem trim_strips_only_whitespace s :
  ∃ pre post,
    s = pre ++ trim s ++ post
    ∧ Forall (λ c, isWhiteSpace c = true) pre
    ∧ Forall (λ c, isWhiteSpace c = true) post.
Proof.
  destruct (trimStart_split s) as (pre & Hs & Hpre).
  destruct (trimEnd_split (trimStart s)) as (post & Ht & Hpost).
  exists pre, post. split; [|done].
  unfold trim. by rewrite <- Ht.
Qed.

(** X2: what [trim] returns neither starts nor ends with whitespace. *)
Theorem trim_ends_not_whitespace s c :
  list.head (trim s) = Some c ∨ list.last (trim s) = Some c → isWhiteSpace c = false.
Proof.
  intros [Hhead|Hlast]; [|by eapply trimEnd_last].
  unfold trim in Hhead.
  destruct (trimStart s) as [|c0 r0] eqn:E; [done|].
  assert (Hc0 : isWhiteSpace c0 = false).
  { apply (trimStart_head s). by rewrite E. }
  rewrite (trimEnd_head (c0 :: r0) c0 eq_refl Hc0) in Hhead. congruence.
Qed.

(** X3: a string with no whitespace at either end is left as it is, and
    trimming twice is trimming once. *)
Theorem trim_idempotent s :
  ((∀ c, list.head s = Some c ∨ list.last s = Some c → isWhiteSpace c = false) →
   trim s = s)
  ∧ trim (trim s) = trim s.
Proof.
  assert (Hfix : ∀ t : jsstring,
             (∀ c, list.head t = Some c ∨ list.last t = Some c → isWhiteSpace c = false) →
             trim t = t).
  { intros t Ht. unfold trim. rewrite trimStart_fixed by auto.
    apply trimEnd_fixed. auto. }
  split; [apply Hfix|].
  apply Hfix. intros c Hc. destruct Hc as [Hc|Hc].
  - unfold trim in Hc.
    destruct (trimStart s) as [|c0 r0] eqn:E; [done|].
    assert (Hc0 : isWhiteSpace c0 = false).
    { apply (trimStart_head s). by rewrite E. }
    rewrite (trimEnd_head (c0 :: r0) c0 eq_refl Hc0) in Hc. congruence.
  - by eapply trimEnd_last.
Qed.

End TrimShape.

(** * More on [App]: requests, alerts and traces of the [notes] state *)

Section AppTraces.

Import App Trace.

Implicit Types (content : jsstring) (notes prevNotes : list note).
Implicit Types (es : list event).

Lemma not_all_whitespace_iff content :
  ¬ Forall (λ c, isWhiteSpace c = true) content
  ↔ Exists (λ c, isWhiteSpace c = false) content.
Proof.
  induction content as [|c r IH].
  - split; [intros H; by destruct H|intros H; inversion H].
  - split.
    + intros Hnot. destruct (isWhiteSpace c) eqn:Hc; [|by left].
      right. apply IH. intros Hr. apply Hnot. by constructor.
    + intros Hex Hall. inversion Hall as [|? ? Hc Hr]; subst.
      inversion Hex as [? ? Hf|? ? Hr']; subst; [congruence|].
      by apply IH in Hr'.
Qed.

Lemma truthy_trim_iff content :
  truthy (trim content) = true
  ↔ Exists (λ c, isWhiteSpace c = false) content.
Proof.
  rewrite <- not_all_whitespace_iff, <- trim_falsy_iff.
  by destruct (truthy (trim content)).
Qed.

(** X4: [handleSaveNote] sends a request exactly when the text has a code
    unit that is not whitespace, and what it sends is the text as typed,
    untrimmed, in one POST to [/notes]. *)
Theorem handleSaveNote_posts_iff content (r : response note) prevNotes :
  (HttpPost (API_URL ++ lit "/notes") content
     ∈ (handleSaveNote content r prevNotes).1
   ↔ Exists (λ c, isWhiteSpace c = false) content)
  ∧ (∀ url body, HttpPost url body ∈ (handleSaveNote content r prevNotes).1 →
       url = lit "http://localhost:5001/api/notes" ∧ body = content)
  ∧ length (List.filter is_post (handleSaveNote content r prevNotes).1) ≤ 1.
Proof.
  rewrite <- truthy_trim_iff. unfold handleSaveNote.
  destruct (truthy (trim content)); simpl.
  - destruct r; simpl; (split; [split; [done|intros _; apply list_elem_of_here]|]);
      (split; [|lia]); intros url body Hin;
      repeat (apply elem_of_cons in Hin as [Hin|Hin]; [by simplify_eq|]);
      by apply elem_of_nil in Hin.
  - split; [split; [|done]|split; [|lia]].
    + intros Hin. apply elem_of_cons in Hin as [Hin|Hin]; [done|].
      by apply elem_of_nil in Hin.
    + intros url body Hin. apply elem_of_cons in Hin as [Hin|Hin]; [done|].
      by apply elem_of_nil in Hin.
Qed.

(** X5: the user sees an alert exactly when the save added nothing: every
    save either appends one note silently or alerts once and leaves the
    notes as they were, so alerts and added notes always count one
    together. *)
Theorem handleSaveNote_alert_iff_unchanged content (r : response note)
    prevNotes :
  ((∃ msg, Alert msg ∈ (handleSaveNote content r prevNotes).1)
   ↔ (handleSaveNote content r prevNotes).2 = prevNotes)
  ∧ length (List.filter is_alert (handleSaveNote content r prevNotes).1)
    + length (handleSaveNote content r prevNotes).2
    = S (length prevNotes).
Proof.
  assert (Hne : ∀ d : note, prevNotes ++ [d] ≠ prevNotes).
  { intros d Heq. apply (f_equal length) in Heq.
    rewrite length_app in Heq. simpl in Heq. lia. }
  unfold handleSaveNote.
  destruct (negb (truthy (trim content))); simpl.
  - split; [|done].
    split; [done|]. intros _. eexists. apply list_elem_of_here.
  - destruct r as [data|error]; simpl.
    + split; [|rewrite length_app; simpl; lia]. split.
      * intros (msg & Hin). apply elem_of_cons in Hin as [Hin|Hin]; [done|].
        by apply elem_of_nil in Hin.
      * intros Heq. by apply Hne in Heq.
    + split; [|done].
      split; [done|]. intros _. eexists.
      apply list_elem_of_further, list_elem_of_further, list_elem_of_here.
Qed.

(** X6: when the backend refuses a save, exactly one alert is shown; it
    reads "Failed to save note: " followed by the backend's own error text
    if the backend sent a non-empty one, and by the message of the axios
    error if it sent none or an empty one. *)
Theorem handleSaveNote_failure_alert content (error : axios_error) prevNotes :
  truthy (trim content) = true →
  ∃ detail,
    List.filter is_alert (handleSaveNote content (Rejected error) prevNotes).1
    = [Alert (lit "Failed to save note: " ++ detail)]
    ∧ (∀ d, response_error error = Some d → d ≠ [] → detail = d)
    ∧ (response_error error = None ∨ response_error error = Some [] →
       detail = message error).
Proof.
  intros Ht. exists (or_else (response_error error) (message error)).
  split; [|split].
  - unfold handleSaveNote. rewrite Ht. reflexivity.
  - intros d Hd Hne. rewrite Hd. cbn [or_else].
    by destruct d as [|c d'].
  - by intros [-> | ->].
Qed.

Lemma run_app es1 es2 notes :
  run (es1 ++ es2) notes = run es2 (run es1 notes).
Proof. unfold run. apply foldl_app. Qed.

Lemma step_save_accepted (c : jsstring) (r : response note) notes :
  step notes (Save c r) = notes ++ option_list (accepted (Save c r)).
Proof.
  simpl. unfold handleSaveNote.
  destruct (truthy (trim c)), r; simpl; by rewrite ?app_nil_r.
Qed.

(** X7: over any sequence of saves the notes grow by exactly the notes the
    backend returned for the saves it accepted, in the order the saves
    completed; duplicates are kept. *)
Theorem run_saves_appended es notes :
  Forall is_save es → run es notes = notes ++ omap accepted es.
Proof.
  intros Hes. revert notes.
  induction Hes as [|e es He _ IH]; intros notes; simpl.
  - by rewrite app_nil_r.
  - destruct e as [|c r]; [done|].
    change (run (Save c r :: es) notes) with (run es (step notes (Save c r))).
    rewrite IH, step_save_accepted.
    destruct (accepted (Save c r)); simpl; by rewrite <- ?app_assoc, ?app_nil_r.
Qed.

(** X8: a completed fetch replaces the state: what the notes are afterwards
    does not depend on anything the state held or any save that completed
    before it. *)
Theorem run_fetch_resets es1 es2 (r : response (option (list note)))
    notes notes' :
  run (es1 ++ Fetch r :: es2) notes = run (Fetch r :: es2) notes'.
Proof.
  rewrite run_app.
  change (run es2 (step (run es1 notes) (Fetch r))
          = run es2 (step notes' (Fetch r))).
  assert (Hstep : step (run es1 notes) (Fetch r) = step notes' (Fetch r))
    by by destruct r.
  by rewrite Hstep.
Qed.


End AppTraces.

(** * More on [NoteVisualizer]: what the scene depends on *)

Section SceneProperties.

Import NoteVisualizer.

Implicit Types (notes ns : list note) (e : element).

Lemma nodes_NoteVisualizer_option (o : option (list note)) :
  nodes (NoteVisualizer o) = render_note <$> default [] o.
Proof.
  destruct o as [ns|]; [apply nodes_NoteVisualizer|reflexivity].
Qed.

(** X10: the text of a note has no influence on the scene: two lists of notes
    with the same ids and the same positions, in the same order, give the
    same scene. *)
Theorem NoteVisualizer_ignores_content ns1 ns2 :
  id <$> ns1 = id <$> ns2 →
  position <$> ns1 = position <$> ns2 →
  NoteVisualizer (Some ns1) = NoteVisualizer (Some ns2).
Proof.
  intros Hid Hpos.
  assert (Hmap : map render_note ns1 = map render_note ns2).
  { revert ns2 Hid Hpos. induction ns1 as [|n1 r1 IH]; intros [|n2 r2];
      simpl; try done.
    intros [= Hid Hids] [= Hpos Hposs].
    unfold render_note at 1 3. rewrite Hid, Hpos. f_equal. by apply IH. }
  unfold NoteVisualizer. by rewrite Hmap.
Qed.

(** X12: the scene has no node exactly when the [notes] prop is falsy or the
    empty array. *)
Theorem NoteVisualizer_no_nodes_iff (o : option (list note)) :
  nodes (NoteVisualizer o) = [] ↔ o = None ∨ o = Some [].
Proof.
  rewrite nodes_NoteVisualizer_option. split.
  - destruct o as [[|n r]|]; simpl; [by right|done|by left].
  - by intros [->| ->].
Qed.

(** X13: what a save does to the scene: the nodes of the notes held before stay
    as they are and in place; the note of an accepted save comes last as
    one more node, and a save that is rejected or fails adds none. *)
Theorem handleSaveNote_scene (content : jsstring) (r : response note) notes :
  nodes (NoteVisualizer (Some (App.handleSaveNote content r notes).2))
  = nodes (NoteVisualizer (Some notes))
    ++ (render_note <$> option_list (Trace.accepted (App.Save content r))).
Proof.
  rewrite !nodes_NoteVisualizer. unfold App.handleSaveNote. simpl.
  destruct (truthy (trim content)), r; simpl; rewrite ?app_nil_r; try done.
  by rewrite map_app.
Qed.

End SceneProperties.

(** * [NoteEditor]: the shortcut and the text area *)

Section EditorProperties.

Import Editor.

Context {A : Type}.
Variable onSave : option (jsstring → A).

Implicit Types (noteContent : jsstring) (es : list event) (ev : key_event).

Lemma editor_run_cons noteContent (e : event) es :
  run onSave noteContent (e :: es)
  = ((step onSave noteContent e).1
       ++ (run onSave (step onSave noteContent e).2 es).1,
     (run onSave (step onSave noteContent e).2 es).2).
Proof.
  simpl. destruct (step onSave noteContent e) as [out c]. simpl.
  by destruct (run onSave c es).
Qed.

(** X14: the shortcut is Ctrl together with a lower-case [n] and nothing else:
    only then is the default action of the key suppressed and the text area
    focused; every other key press is left alone. *)
Theorem handleKeyDown_only_ctrl_n ev :
  (PreventDefault ∈ handleKeyDown ev ↔ ctrlKey ev = true ∧ key ev = lit "n")
  ∧ (FocusTextArea ∈ handleKeyDown ev ↔ ctrlKey ev = true ∧ key ev = lit "n")
  ∧ (ctrlKey ev = false ∨ key ev ≠ lit "n" → handleKeyDown ev = []).
Proof.
  unfold handleKeyDown.
  destruct (ctrlKey ev); simpl; [case_bool_decide as Hkey|].
  - split; [|split].
    + split; [done|]. intros _. apply list_elem_of_here.
    + split; [done|]. intros _. apply list_elem_of_further, list_elem_of_here.
    + by intros [?|?].
  - split; [|split]; [split; [by intros ?%elem_of_nil|by intros [_ ?]]..|done].
  - split; [|split]; [split; [by intros ?%elem_of_nil|by intros [? _]]..|done].
Qed.

Lemma editor_run_frame noteContent es :
  Forall (λ e, is_change e = false) es →
  (run onSave noteContent es).2 = noteContent.
Proof.
  induction 1 as [|e es He _ IH]; [done|].
  rewrite editor_run_cons. simpl.
  destruct e; simpl in *; [done|exact IH..].
Qed.

Lemma editor_run_snoc noteContent es (e : event) :
  run onSave noteContent (es ++ [e])
  = ((run onSave noteContent es).1
       ++ (step onSave (run onSave noteContent es).2 e).1,
     (step onSave (run onSave noteContent es).2 e).2).
Proof.
  revert noteContent. induction es as [|e0 es IH]; intros noteContent.
  - simpl. destruct (step onSave noteContent e) as [out c]. simpl.
    by rewrite app_nil_r.
  - change ((e0 :: es) ++ [e]) with (e0 :: (es ++ [e])).
    rewrite !editor_run_cons, IH. simpl. by rewrite app_assoc.
Qed.

(** X15: the text area always holds the last value typed, or its starting text
    if nothing was typed: the shortcut and Save never set or clear it. *)
Theorem editor_text_is_last_typed noteContent es :
  (run onSave noteContent es).2
  = default noteContent (list.last (typed es)).
Proof.
  revert noteContent. induction es as [|e es IH]; intros noteContent; [done|].
  rewrite editor_run_cons. simpl snd. rewrite IH.
  destruct e as [v|ev|]; simpl; try done.
  rewrite last_cons. by destruct (list.last (typed es)).
Qed.

(** X16: what a click on Save hands to [onSave] is the text as last typed,
    whatever keys were pressed and however often Save was clicked since. *)
Theorem editor_saves_last_typed noteContent (value : jsstring) es :
  Forall (λ e, is_change e = false) es →
  list.last (run onSave noteContent (Change value :: es ++ [ClickSave])).1
  = Some (Saved (NoteEditor.handleSave onSave value)).
Proof.
  intros Hes. rewrite editor_run_cons. cbn [step fst snd].
  rewrite editor_run_snoc. cbn [step fst snd].
  rewrite (editor_run_frame value es Hes).
  by rewrite app_nil_l, last_snoc.
Qed.

(** X17: clicking Save [n] times in a row hands the same text to [onSave] [n]
    times: the editor neither clears the text after a save nor suppresses a
    repeated click. *)
Theorem editor_repeated_save noteContent (n : nat) :
  run onSave noteContent (replicate n ClickSave)
  = (replicate n (Saved (NoteEditor.handleSave onSave noteContent)),
     noteContent).
Proof.
  induction n as [|n IH]; [done|].
  simpl replicate. rewrite editor_run_cons. cbn [step fst snd].
  rewrite IH. reflexivity.
Qed.

(** X18: a save happens for every click on Save and for nothing else: the
    outputs of a run hold exactly as many saves as the events hold
    clicks. *)
Theorem editor_saves_are_clicks noteContent es :
  length (List.filter is_saved (run onSave noteContent es).1)
  = length (List.filter is_click es).
Proof.
  revert noteContent. induction es as [|e es IH]; intros noteContent; [done|].
  rewrite editor_run_cons. simpl fst. rewrite List.filter_app, length_app, IH.
  destruct e as [v|ev|]; simpl; try done.
  unfold handleKeyDown. by destruct (_ && _).
Qed.

End EditorProperties.

(** * The added properties on the sample data *)

Section MoreSamples.

Import App Trace NoteVisualizer Editor.

Example editor_session_sample :
  run (Some handleSaveNote) initial_content
    (Change Sample2.padded :: Sample2.keys_and_clicks)
  = ([Dom PreventDefault; Dom FocusTextArea;
      Dom (Log (lit "Ctrl+N pressed - focusing editor"));
      Saved (inr (handleSaveNote Sample2.padded))],
     Sample2.padded).
Proof. reflexivity. Qed.

Example shift_n_sample : handleKeyDown (KeyEvent true (lit "N")) = [].
Proof. reflexivity. Qed.

Lemma trim_ends_not_whitespace_witness :
  list.head (trim Sample2.padded) = Some 116%N ∧ isWhiteSpace 116 = false.
Proof.
  assert (H : list.head (trim Sample2.padded) = Some 116%N) by reflexivity.
  split; [exact H|].
  exact (trim_ends_not_whitespace Sample2.padded 116%N (or_introl H)).
Defined.

Lemma trim_idempotent_witness :
  (∀ c, list.head (lit "a b") = Some c ∨ list.last (lit "a b") = Some c →
        isWhiteSpace c = false)
  ∧ trim (lit "a b") = lit "a b".
Proof.
  assert (H : ∀ c, list.head (lit "a b") = Some c
                   ∨ list.last (lit "a b") = Some c →
                   isWhiteSpace c = false).
  { intros c [Hc|Hc]; vm_compute in Hc; injection Hc as <-; reflexivity. }
  split; [exact H|].
  exact (proj1 (trim_idempotent (lit "a b")) H).
Defined.

Lemma handleSaveNote_posts_iff_witness :
  Exists (λ c, isWhiteSpace c = false) Sample2.padded
  ∧ HttpPost (API_URL ++ lit "/notes") Sample2.padded
      ∈ (handleSaveNote Sample2.padded (Resolved Sample.taxes) []).1.
Proof.
  assert (H : Exists (λ c, isWhiteSpace c = false) Sample2.padded).
  { do 2 apply Exists_cons_tl. apply Exists_cons_hd. reflexivity. }
  split; [exact H|].
  exact (proj2 (proj1 (handleSaveNote_posts_iff Sample2.padded
                         (Resolved Sample.taxes) [])) H).
Defined.

Lemma handleSaveNote_alert_iff_unchanged_witness :
  (handleSaveNote Sample.blank (Resolved Sample.taxes) [Sample.hiking]).2
  = [Sample.hiking]
  ∧ ∃ msg, Alert msg
      ∈ (handleSaveNote Sample.blank (Resolved Sample.taxes) [Sample.hiking]).1.
Proof.
  assert (H : (handleSaveNote Sample.blank (Resolved Sample.taxes)
                 [Sample.hiking]).2 = [Sample.hiking]) by reflexivity.
  split; [exact H|].
  exact (proj2 (proj1 (handleSaveNote_alert_iff_unchanged Sample.blank
                         (Resolved Sample.taxes) [Sample.hiking])) H).
Defined.

Lemma handleSaveNote_failure_alert_witness :
  truthy (trim Sample2.padded) = true
  ∧ response_error Sample2.bad_request = Some (lit "Content is required")
  ∧ List.filter is_alert
      (handleSaveNote Sample2.padded (Rejected Sample2.bad_request) []).1
    = [Alert (lit "Failed to save note: " ++ lit "Content is required")].
Proof.
  assert (Ht : truthy (trim Sample2.padded) = true) by reflexivity.
  assert (Hd : response_error Sample2.bad_request
               = Some (lit "Content is required")) by reflexivity.
  split; [exact Ht|]. split; [exact Hd|].
  destruct (handleSaveNote_failure_alert Sample2.padded Sample2.bad_request
              [] Ht) as (detail & Halert & Hsome & _).
  rewrite <- (Hsome (lit "Content is required") Hd ltac:(discriminate)).
  exact Halert.
Defined.

Lemma run_saves_appended_witness :
  Forall is_save Sample2.saves
  ∧ App.run Sample2.saves [Sample.hiking] = [Sample.hiking; Sample.taxes].
Proof.
  assert (H : Forall is_save Sample2.saves) by (repeat constructor).
  split; [exact H|].
  exact (run_saves_appended Sample2.saves [Sample.hiking] H).
Defined.


Lemma NoteVisualizer_ignores_content_witness :
  content Sample.hiking ≠ content Sample2.hiking_edited
  ∧ NoteVisualizer (Some [Sample.hiking])
    = NoteVisualizer (Some [Sample2.hiking_edited]).
Proof.
  split; [discriminate|].
  exact (NoteVisualizer_ignores_content [Sample.hiking]
           [Sample2.hiking_edited] eq_refl eq_refl).
Defined.

Lemma NoteVisualizer_no_nodes_iff_witness :
  nodes (NoteVisualizer (Some [])) = [].
Proof.
  exact (proj2 (NoteVisualizer_no_nodes_iff (Some [])) (or_intror eq_refl)).
Defined.

Lemma handleKeyDown_only_ctrl_n_witness :
  (ctrlKey Sample2.ctrl_n = true ∧ key Sample2.ctrl_n = lit "n")
  ∧ PreventDefault ∈ handleKeyDown Sample2.ctrl_n.
Proof.
  assert (H : ctrlKey Sample2.ctrl_n = true ∧ key Sample2.ctrl_n = lit "n")
    by (split; reflexivity).
  split; [exact H|].
  exact (proj2 (proj1 (handleKeyDown_only_ctrl_n Sample2.ctrl_n)) H).
Defined.

Lemma editor_saves_last_typed_witness :
  Forall (λ e, is_change e = false) Sample2.keys_and_clicks
  ∧ list.last (run (Some handleSaveNote) initial_content
                 (Change Sample2.padded
                  :: Sample2.keys_and_clicks ++ [ClickSave])).1
    = Some (Saved (inr (handleSaveNote Sample2.padded))).
Proof.
  assert (H : Forall (λ e, is_change e = false) Sample2.keys_and_clicks)
    by (repeat constructor).
  split; [exact H|].
  exact (editor_saves_last_typed (Some handleSaveNote) initial_content
           Sample2.padded Sample2.keys_and_clicks H).
Defined.

End MoreSamples.
